(** * The resource manager of the Speech SDK core: an ordered registry of
    module factories

    Shallow embedding of [source/core/factory/resource_manager.cpp]:
    the constructor [CSpxResourceManager::CSpxResourceManager], which fills
    [m_moduleFactories] in a fixed order chosen by the preprocessor, and
    [CSpxResourceManager::CreateObject], which walks that list and returns
    the first object a factory creates.

    The module factories themselves ([module_factory.h]) are collaborators:
    a factory is any type with a [CreateObject] operation that may act on
    the state of the outside world (loading a library, counting calls,
    allocating the object). *)

From Stdlib Require Import NArith ZArith.
From stdpp Require Import base list strings gmap.

Local Open Scope string_scope.
Local Open Scope list_scope.
Local Open Scope nat_scope.

(** ** Data *)

(** [void*]: an address, with the null pointer as address 0. *)
Definition void_ptr : Type := N.
Definition nullptr : void_ptr := 0%N.

(** [obj != nullptr] *)
Definition ptr_ne (p q : void_ptr) : bool := negb (N.eqb p q).

(** The interface [ISpxObjectFactory]: [factory->CreateObject(className,
    interfaceName)] answers with a pointer and may change the state [W] of
    the world outside the resource manager. *)
Class ISpxObjectFactory (W F : Type) :=
  factory_CreateObject : F → string → string → W → void_ptr * W.

(** The object: its one data member is the list of factory handles. *)
Record CSpxResourceManager (F : Type) := MkResourceManager {
  m_moduleFactories : list F
}.
Arguments MkResourceManager {F} _.
Arguments m_moduleFactories {F} _.

(** [std::list::push_back] *)
Definition push_back {A : Type} (l : list A) (x : A) : list A := l ++ [x].

(** What the preprocessor sees: [#ifdef __linux__] asks whether the macro is
    defined, [#elif __MACH__] whether it evaluates to non-zero (an undefined
    macro evaluates to 0). *)
Record Macros := MkMacros {
  defined_linux : bool;
  nonzero_MACH : bool
}.

(** ** The constructor *)

Section Constructor.
Context {F : Type}.

(** [CSpxModuleFactory::Get], declared in [module_factory.h]: it resolves a
    module name to a factory handle, the same handle each time the same name
    is asked for. *)
Variable Get : string → F.

(** [m_moduleFactories.push_back(CSpxModuleFactory::Get(name))] *)
Definition add_module (this : CSpxResourceManager F) (name : string)
  : CSpxResourceManager F :=
  MkResourceManager (push_back (m_moduleFactories this) (Get name)).

Definition CSpxResourceManager_ctor (m : Macros) : CSpxResourceManager F :=
  let this := MkResourceManager [] in
  if defined_linux m then
    let this := add_module this "libcarbon-mock.so" in
    let this := add_module this "libMicrosoft.CognitiveServices.Speech.extension.pma.so" in
    let this := add_module this "libMicrosoft.CognitiveServices.Speech.extension.kws.so" in
    let this := add_module this "carbon" in
    this
  else if nonzero_MACH m then
    let this := add_module this "libcarbon-mock.dylib" in
    let this := add_module this "libMicrosoft.CognitiveServices.Speech.extension.pma.dylib" in
    let this := add_module this "libMicrosoft.CognitiveServices.Speech.extension.kws.dylib" in
    let this := add_module this "carbon" in
    this
  else
    let this := add_module this "carbon-mock.dll" in
    let this := add_module this "Microsoft.CognitiveServices.Speech.extension.pma.dll" in
    let this := add_module this "Microsoft.CognitiveServices.Speech.extension.kws.dll" in
    let this := add_module this "carbon" in
    let this := add_module this "carbon-unidec.dll" in
    this.
End Constructor.

(** ** Object creation *)

Section Creation.
Context {W F : Type} `{!ISpxObjectFactory W F}.

(** The range-based [for] over [m_moduleFactories]: each factory is asked in
    turn; the first non-null answer leaves the loop and the function, and a
    loop that runs off the end falls through to [return nullptr]. *)
Fixpoint CreateObject_loop (factories : list F)
    (className interfaceName : string) (w : W) : void_ptr * W :=
  match factories with
  | [] => (nullptr, w)
  | factory :: rest =>
      let '(obj, w1) := factory_CreateObject factory className interfaceName w in
      if ptr_ne obj nullptr then (obj, w1)
      else CreateObject_loop rest className interfaceName w1
  end.

(** The member function: it sees the object [this] and the outside world,
    and leaves both behind next to the returned pointer. *)
Definition CreateObject (this : CSpxResourceManager F)
    (className interfaceName : string) (w : W)
  : void_ptr * (CSpxResourceManager F * W) :=
  let '(obj, w') :=
    CreateObject_loop (m_moduleFactories this) className interfaceName w in
  (obj, (this, w')).
End Creation.

(** ** The preprocessor branches and the names they resolve *)

(** The three branches of the constructor, named after the platforms that
    reach them. *)
Inductive Branch := Linux | MacOS | Windows.

Definition branch_of (m : Macros) : Branch :=
  if defined_linux m then Linux
  else if nonzero_MACH m then MacOS
  else Windows.

(** The literal names the constructor passes to the resolver, in order: the
    constructor run with the resolver that hands every name back. *)
Definition resolved_names (m : Macros) : list string :=
  m_moduleFactories (CSpxResourceManager_ctor (λ name, name) m).

(** The first name the constructor resolves. *)
Definition mock_module (m : Macros) : string :=
  default "" (head (resolved_names m)).

(** Library file naming differs per platform: a [lib] prefix on Linux and
    macOS, and the suffixes [.so], [.dylib] and [.dll]. The logical name of
    a module is its file name without them. *)
Definition strip_prefix (p s : string) : string :=
  if String.prefix p s
  then String.substring (String.length p) (String.length s - String.length p) s
  else s.

Definition strip_suffix (x s : string) : string :=
  let n := String.length s in
  let k := String.length x in
  if Nat.leb k n && String.eqb (String.substring (n - k) k s) x
  then String.substring 0 (n - k) s
  else s.

Definition logical_name (name : string) : string :=
  strip_suffix ".dll"
    (strip_suffix ".dylib" (strip_suffix ".so" (strip_prefix "lib" name))).

(** ** What the factories of a list are asked, and in which world *)

Section Consulting.
Context {W F : Type} `{!ISpxObjectFactory W F}.

(** The world left behind when every factory of [factories] has been asked
    once, in order, for the same pair. *)
Fixpoint consult_all (factories : list F)
    (className interfaceName : string) (w : W) : W :=
  match factories with
  | [] => w
  | factory :: rest =>
      consult_all rest className interfaceName
        (factory_CreateObject factory className interfaceName w).2
  end.

(** The world in which the factory at position [i] is asked, when all the
    factories before it have been asked. *)
Definition world_before (factories : list F)
    (className interfaceName : string) (w : W) (i : nat) : W :=
  consult_all (take i factories) className interfaceName w.

(** Every factory of [factories] answers null when its turn comes. *)
Definition all_decline (factories : list F)
    (className interfaceName : string) (w : W) : Prop :=
  ∀ j g, factories !! j = Some g →
    (factory_CreateObject g className interfaceName
       (world_before factories className interfaceName w j)).1 = nullptr.

(** A factory whose answer is a function of the pair alone. *)
Definition deterministic (factory : F) : Prop :=
  ∀ className interfaceName (w1 w2 : W),
    (factory_CreateObject factory className interfaceName w1).1
    = (factory_CreateObject factory className interfaceName w2).1.

(** A factory that leaves the world as it found it. *)
Definition stateless (factory : F) : Prop :=
  ∀ className interfaceName (w : W),
    (factory_CreateObject factory className interfaceName w).2 = w.

(** A sequence of calls on one resource manager, each starting from the
    object and the world the previous one left. *)
Fixpoint run_calls (this : CSpxResourceManager F)
    (history : list (string * string)) (w : W)
  : list void_ptr * (CSpxResourceManager F * W) :=
  match history with
  | [] => ([], (this, w))
  | (className, interfaceName) :: rest =>
      let '(obj, (this1, w1)) := CreateObject this className interfaceName w in
      let '(objs, s) := run_calls this1 rest w1 in
      (obj :: objs, s)
  end.
End Consulting.

(** ** Factories with call records *)

(** One invocation of a factory: its position in the list, the two strings
    it received and the pointer it answered. *)
Record Call := MkCall {
  call_position : nat;
  call_className : string;
  call_interfaceName : string;
  call_result : void_ptr
}.

(** A factory wrapped so that every invocation is appended to a log kept in
    the world. *)
Record Instrumented (F : Type) := MkInstrumented {
  inner : F;
  position : nat
}.
Arguments MkInstrumented {F} _ _.
Arguments inner {F} _.
Arguments position {F} _.

#[global] Instance Instrumented_factory {W F : Type} `{!ISpxObjectFactory W F}
  : ISpxObjectFactory (W * list Call) (Instrumented F) :=
  λ factory className interfaceName s,
    let '(obj, w') :=
      factory_CreateObject (inner factory) className interfaceName s.1 in
    (obj, (w', (s.2 ++ [MkCall (position factory) className interfaceName obj])%list)).

Fixpoint instrument_from {F : Type} (k : nat) (factories : list F)
  : list (Instrumented F) :=
  match factories with
  | [] => []
  | factory :: rest => MkInstrumented factory k :: instrument_from (S k) rest
  end.

(** The same resource manager with the factory at position [i] recording its
    calls under [i]. *)
Definition instrument {F : Type} (this : CSpxResourceManager F)
  : CSpxResourceManager (Instrumented F) :=
  MkResourceManager (instrument_from 0 (m_moduleFactories this)).

(** The call counter of position [i]. *)
Definition calls_of (i : nat) (log : list Call) : nat :=
  length (filter (λ c, call_position c = i) log).

(** The calls of a search that the factory at position [i] wins with [obj]:
    positions [0 .. i-1] answered null, position [i] answered [obj]. *)
Definition winning_calls (className interfaceName : string)
    (i : nat) (obj : void_ptr) : list Call :=
  (((λ j, MkCall j className interfaceName nullptr) <$> seq 0 i)
   ++ [MkCall i className interfaceName obj])%list.

(** ** Stub factories *)

(** A stub factory: a table from class/interface pairs to the token it
    answers with; any other pair gets the null pointer. It has no state. *)
Record StubFactory := MkStub {
  stub_table : list (string * string * void_ptr)
}.

Fixpoint stub_lookup (table : list (string * string * void_ptr))
    (className interfaceName : string) : void_ptr :=
  match table with
  | [] => nullptr
  | (c, i, token) :: rest =>
      if String.eqb c className && String.eqb i interfaceName then token
      else stub_lookup rest className interfaceName
  end.

#[global] Instance StubFactory_factory : ISpxObjectFactory unit StubFactory :=
  λ factory className interfaceName w,
    (stub_lookup (stub_table factory) className interfaceName, w).

Definition token_M : void_ptr := 77%N.
Definition token_R : void_ptr := 82%N.
Definition token_S : void_ptr := 83%N.

(** The stubs of the scenario in the specification's testable properties. *)
Definition MockFactory : StubFactory := MkStub [("A", "IA", token_M)].
Definition RealFactory : StubFactory :=
  MkStub [("A", "IA", token_R); ("B", "IB", token_S)].

(** A resolver onto stubs: the mock module and the core module both claim
    ["Foo"]/["IFoo"], with distinguishable tokens; every other module is
    absent and fails every request. *)
Definition stub_Get (name : string) : StubFactory :=
  if String.eqb (logical_name name) "carbon-mock"
  then MkStub [("Foo", "IFoo", token_M)]
  else if String.eqb (logical_name name) "carbon"
  then MkStub [("Foo", "IFoo", token_R); ("Bar", "IBar", token_S)]
  else MkStub [].

(** ** Factories that keep count *)

(** Factories over a world that counts the objects handed out so far. A
    [Limited] factory serves its table only while fewer than [limit] objects
    have been handed out, and counts each object it builds (a factory of
    singletons is [Limited 1]); an [Unlimited] factory serves its table
    always and counts nothing. *)
Inductive CountingFactory :=
  | Limited (limit : nat) (table : list (string * string * void_ptr))
  | Unlimited (table : list (string * string * void_ptr)).

#[global] Instance CountingFactory_factory
  : ISpxObjectFactory nat CountingFactory :=
  λ factory className interfaceName built,
    match factory with
    | Limited limit table =>
        let obj := stub_lookup table className interfaceName in
        if ptr_ne obj nullptr && Nat.ltb built limit
        then (obj, S built)
        else (nullptr, built)
    | Unlimited table => (stub_lookup table className interfaceName, built)
    end.

Definition linux : Macros := MkMacros true false.
Definition macos : Macros := MkMacros false true.
Definition windows : Macros := MkMacros false false.

(** ** Factories that never build, and factories that agree *)

Section Shadowing.
Context {W F : Type} `{!ISpxObjectFactory W F}.

(** A factory that answers null to every request and leaves the world as it
    found it: what a module that is not there looks like to the loop. *)
Definition inert (factory : F) : Prop :=
  ∀ className interfaceName (w : W),
    factory_CreateObject factory className interfaceName w = (nullptr, w).

(** No two factories of the list answer the pair with different objects:
    whichever of them build it, they hand out the same pointer. *)
Definition agree (factories : list F)
    (className interfaceName : string) (w : W) : Prop :=
  ∀ f g, f ∈ factories → g ∈ factories →
    (factory_CreateObject f className interfaceName w).1 ≠ nullptr →
    (factory_CreateObject g className interfaceName w).1 ≠ nullptr →
    (factory_CreateObject f className interfaceName w).1
    = (factory_CreateObject g className interfaceName w).1.
End Shadowing.

(** ** The test runner: [tests/functional/cxx/api/main.cpp] *)

(** [#if defined(_MSC_VER) && defined(_DEBUG)] *)
Record MainMacros := MkMainMacros {
  defined_MSC_VER : bool;
  defined_DEBUG : bool
}.

Definition newline : string := String (Ascii.ascii_of_nat 10) EmptyString.

(** What the C runtime does for the code of this file: [fprintf(stderr, _)]
    with the text already formatted, and a store through a non-null
    [int*]. *)
Class CRuntime (W : Type) := {
  fprintf_stderr : string → W → W;
  store_int : void_ptr → Z → W → W
}.

(** A report hook as [_CrtSetReportHook2] takes it:
    [int hook(int reportType, char* message, int* returnValue)]. *)
Definition ReportHook (W : Type) : Type :=
  Z → string → void_ptr → W → Z * W.

(** The functions [main] calls and this file does not define: the CRT's
    hook registration with its [_CRT_RPTHOOK_INSTALL] mode, the helpers of
    [test_utils.h], and the construction, run and destruction of
    [Catch::Session] (type [S]). *)
Class TestHarness (W S : Type) := {
  _CRT_RPTHOOK_INSTALL : Z;
  _CrtSetReportHook2 : Z → ReportHook W → W → Z * W;
  add_signal_handlers : W → W;
  Session_ctor : W → S * W;
  Session_dtor : S → W → W;
  checkForDiscovery : Z → list string → W → bool * W;
  LoadFromJsonFile : option string → W → W;
  parse_cli_args : S → Z → list string → W → Z * (S * W);
  Session_run : S → W → Z * (S * W)
}.

Section TestRunner.
Context {W S : Type} `{!CRuntime W} `{!TestHarness W S}.

(** [HandleDebugAssert]: print the message, tell the CRT to carry on
    ([*returnValue = 0], when there is somewhere to write it) and report
    that the assert has been dealt with. The report type is not looked at. *)
Definition HandleDebugAssert (reportType : Z) (message : string)
    (returnValue : void_ptr) (w : W) : Z * W :=
  let w := fprintf_stderr ("C-Runtime: " +:+ message +:+ newline) w in
  let w := if ptr_ne returnValue nullptr
           then store_int returnValue 0 w
           else w in
  (1%Z, w).

(** The part of [main] in the scope of [session]: every way out of it runs
    the destructor of [session]. [argv[0]] is the first argument, or the
    null pointer that ends [argv] when there is none. *)
Definition main_session (argc : Z) (argv : list string) (w : W) : Z * W :=
  let '(session, w) := Session_ctor w in
  let '(discovery, w) := checkForDiscovery argc argv w in
  let w := if negb discovery then LoadFromJsonFile (head argv) w else w in
  let '(returnCode, (session, w)) := parse_cli_args session argc argv w in
  if negb (Z.eqb returnCode 0) then (returnCode, Session_dtor session w)
  else
    let '(result, (session, w)) := Session_run session w in
    (result, Session_dtor session w).

Definition main (m : MainMacros) (argc : Z) (argv : list string) (w : W)
  : Z * W :=
  let hooked :=
    if defined_MSC_VER m && defined_DEBUG m then
      let '(r, w) := _CrtSetReportHook2 _CRT_RPTHOOK_INSTALL HandleDebugAssert w in
      if Z.eqb r (-1)
      then inl (fprintf_stderr ("_CrtSetReportHook2 failed." +:+ newline) w)
      else inr w
    else inr w in
  match hooked with
  | inl w => ((-1)%Z, w)
  | inr w =>
      let w := add_signal_handlers w in
      main_session argc argv w
  end.
End TestRunner.

(** ** A machine that records what the test runner does *)

Inductive Event :=
  | EvHookInstall (mode : Z)
  | EvSignalHandlers
  | EvSessionCreated
  | EvDiscovery (argc : Z) (argv : list string)
  | EvLoadConfig (path : option string)
  | EvParseCli (argc : Z) (argv : list string)
  | EvSessionRun
  | EvSessionDestroyed.

(** The text written to [stderr], the [int] cells of memory by address, and
    the calls made to the harness so far. *)
Record Machine := MkMachine {
  stderr_out : string;
  int_mem : gmap N Z;
  trace : list Event
}.

(** What the harness answers: the result of the hook registration, whether
    the run is a test discovery, the result of parsing the command line and
    the result of running the session. *)
Record Oracle := MkOracle {
  hook_rc : Z;
  discovery : bool;
  cli_rc : Z;
  run_rc : Z
}.

Definition record_event (e : Event) (m : Machine) : Machine :=
  MkMachine (stderr_out m) (int_mem m) (trace m ++ [e]).

#[global] Instance Machine_runtime : CRuntime Machine := {
  fprintf_stderr text m :=
    MkMachine (stderr_out m +:+ text) (int_mem m) (trace m);
  store_int p v m :=
    MkMachine (stderr_out m) (<[p := v]> (int_mem m)) (trace m)
}.

Definition recording_harness (o : Oracle) : TestHarness Machine unit := {|
  _CRT_RPTHOOK_INSTALL := 0%Z;
  _CrtSetReportHook2 mode hook m := (hook_rc o, record_event (EvHookInstall mode) m);
  add_signal_handlers m := record_event EvSignalHandlers m;
  Session_ctor m := ((), record_event EvSessionCreated m);
  Session_dtor _ m := record_event EvSessionDestroyed m;
  checkForDiscovery argc argv m :=
    (discovery o, record_event (EvDiscovery argc argv) m);
  LoadFromJsonFile path m := record_event (EvLoadConfig path) m;
  parse_cli_args session argc argv m :=
    (cli_rc o, (session, record_event (EvParseCli argc argv) m));
  Session_run session m := (run_rc o, (session, record_event EvSessionRun m))
|}.

(** [main] on the recording machine. *)
Definition main_recorded (o : Oracle) (m : MainMacros)
    (argc : Z) (argv : list string) (w : Machine) : Z * Machine :=
  main (TestHarness0 := recording_harness o) m argc argv w.

(** The hook registration fails: the branch of [main] that gives up. *)
Definition hook_fails (o : Oracle) (m : MainMacros) : bool :=
  defined_MSC_VER m && defined_DEBUG m && Z.eqb (hook_rc o) (-1).

(** The harness calls made between two states of the machine. *)
Definition new_events (before after : Machine) : list Event :=
  drop (length (trace before)) (trace after).

(** * Properties *)

(** ** The search loop *)

Lemma ptr_ne_spec (p q : void_ptr) : ptr_ne p q = true ↔ p ≠ q.
Proof.
  unfold ptr_ne. rewrite negb_true_iff. apply N.eqb_neq.
Qed.

Section CreationFacts.
Context {W F : Type} `{!ISpxObjectFactory W F}.
Implicit Types (factories pre post : list F) (this : CSpxResourceManager F).
Implicit Types (className interfaceName : string) (w : W).

(** A factory that answers non-null ends the loop with its answer. *)
Lemma CreateObject_loop_win factory rest className interfaceName w :
  (factory_CreateObject factory className interfaceName w).1 ≠ nullptr →
  CreateObject_loop (factory :: rest) className interfaceName w
  = factory_CreateObject factory className interfaceName w.
Proof.
  intros Hwin. simpl.
  destruct (factory_CreateObject factory className interfaceName w)
    as [obj w1] eqn:Hcall.
  apply ptr_ne_spec in Hwin. simpl in Hwin. by rewrite Hwin.
Qed.

(** A factory that answers null hands the search to the rest of the list,
    in the world it left. *)
Lemma CreateObject_loop_decline factory rest className interfaceName w :
  (factory_CreateObject factory className interfaceName w).1 = nullptr →
  CreateObject_loop (factory :: rest) className interfaceName w
  = CreateObject_loop rest className interfaceName
      (factory_CreateObject factory className interfaceName w).2.
Proof.
  intros Hnull. simpl.
  destruct (factory_CreateObject factory className interfaceName w)
    as [obj w1] eqn:Hcall.
  simpl in *. by subst obj.
Qed.

Lemma world_before_0 factories className interfaceName w :
  world_before factories className interfaceName w 0 = w.
Proof. unfold world_before. by rewrite take_0. Qed.

Lemma world_before_S factory rest className interfaceName w j :
  world_before (factory :: rest) className interfaceName w (S j)
  = world_before rest className interfaceName
      (factory_CreateObject factory className interfaceName w).2 j.
Proof. done. Qed.

Lemma all_decline_cons_inv factory rest className interfaceName w :
  all_decline (factory :: rest) className interfaceName w →
  (factory_CreateObject factory className interfaceName w).1 = nullptr
  ∧ all_decline rest className interfaceName
      (factory_CreateObject factory className interfaceName w).2.
Proof.
  intros Hall. split.
  - specialize (Hall 0 factory eq_refl). by rewrite world_before_0 in Hall.
  - intros j g Hg. specialize (Hall (S j) g Hg).
    by rewrite world_before_S in Hall.
Qed.

(** The loop skips a prefix of declining factories. *)
Lemma CreateObject_loop_skip pre post className interfaceName w :
  all_decline pre className interfaceName w →
  CreateObject_loop (pre ++ post) className interfaceName w
  = CreateObject_loop post className interfaceName
      (consult_all pre className interfaceName w).
Proof.
  revert w. induction pre as [|factory pre IH]; intros w Hall; [done|].
  apply all_decline_cons_inv in Hall as [Hnull Hrest].
  rewrite <- app_comm_cons, CreateObject_loop_decline by done.
  by rewrite IH.
Qed.

Lemma all_decline_take factories className interfaceName w i :
  (∀ j g, j < i → factories !! j = Some g →
     (factory_CreateObject g className interfaceName
        (world_before factories className interfaceName w j)).1 = nullptr) →
  all_decline (take i factories) className interfaceName w.
Proof.
  intros Hbefore j g Hg.
  apply lookup_take_Some in Hg as [Hg Hlt].
  unfold world_before. rewrite take_take, Nat.min_l by lia.
  by apply Hbefore.
Qed.

Lemma CreateObject_fst this className interfaceName w :
  (CreateObject this className interfaceName w).1
  = (CreateObject_loop (m_moduleFactories this) className interfaceName w).1.
Proof. unfold CreateObject. by destruct (CreateObject_loop _ _ _ _). Qed.

Lemma CreateObject_world this className interfaceName w :
  (CreateObject this className interfaceName w).2.2
  = (CreateObject_loop (m_moduleFactories this) className interfaceName w).2.
Proof. unfold CreateObject. by destruct (CreateObject_loop _ _ _ _). Qed.

(** C1. Priority correctness: when the factory at position [i] of the list
    answers non-null for the pair and every factory at a position before [i]
    answers null (each asked in the world its predecessors left), then
    [CreateObject] returns exactly what the factory at position [i] produced,
    and leaves the world that factory left. *)
Theorem CreateObject_priority this className interfaceName w i factory :
  m_moduleFactories this !! i = Some factory →
  (∀ j g, j < i → m_moduleFactories this !! j = Some g →
     (factory_CreateObject g className interfaceName
        (world_before (m_moduleFactories this) className interfaceName w j)).1
     = nullptr) →
  (factory_CreateObject factory className interfaceName
     (world_before (m_moduleFactories this) className interfaceName w i)).1
  ≠ nullptr →
  CreateObject this className interfaceName w
  = let r := factory_CreateObject factory className interfaceName
               (world_before (m_moduleFactories this) className interfaceName w i)
    in (r.1, (this, r.2)).
Proof.
  intros Hi Hbefore Hwin. unfold CreateObject.
  rewrite <- (take_drop_middle _ _ _ Hi) at 1.
  rewrite CreateObject_loop_skip by by apply all_decline_take.
  fold (world_before (m_moduleFactories this) className interfaceName w i).
  rewrite CreateObject_loop_win by done.
  by destruct (factory_CreateObject factory className interfaceName _).
Qed.

(** C4. Exhaustion correctness: when every factory of the list answers null
    for the pair, [CreateObject] returns the null pointer, the ordinary
    value of its return type, after having asked them all; the empty list
    is the case with nobody to ask. *)
Theorem CreateObject_exhaustion this className interfaceName w :
  (∀ j g, m_moduleFactories this !! j = Some g →
     (factory_CreateObject g className interfaceName
        (world_before (m_moduleFactories this) className interfaceName w j)).1
     = nullptr) →
  CreateObject this className interfaceName w
  = (nullptr,
     (this, consult_all (m_moduleFactories this) className interfaceName w)).
Proof.
  intros Hall. unfold CreateObject.
  rewrite <- (app_nil_r (m_moduleFactories this)) at 1.
  by rewrite CreateObject_loop_skip.
Qed.

(** C7. Determinism: over a list of factories whose answers are functions
    of the class and interface names alone, two calls of [CreateObject] with
    the same names return the same pointer, whatever world each starts in;
    in particular a second call made right after the first. *)
Theorem CreateObject_deterministic this className interfaceName w1 w2 :
  Forall deterministic (m_moduleFactories this) →
  (CreateObject this className interfaceName w1).1
  = (CreateObject this className interfaceName w2).1
  ∧ (CreateObject this className interfaceName
       (CreateObject this className interfaceName w1).2.2).1
    = (CreateObject this className interfaceName w1).1.
Proof.
  intros Hdet.
  assert (Hloop : ∀ v1 v2 : W,
    (CreateObject_loop (m_moduleFactories this) className interfaceName v1).1
    = (CreateObject_loop (m_moduleFactories this) className interfaceName v2).1).
  { induction Hdet as [|factory rest Hf _ IH]; intros v1 v2; [done|].
    specialize (Hf className interfaceName v1 v2). simpl.
    destruct (factory_CreateObject factory className interfaceName v1)
      as [o1 v1'], (factory_CreateObject factory className interfaceName v2)
      as [o2 v2']. simpl in Hf. subst o2.
    destruct (ptr_ne o1 nullptr); [done|apply IH]. }
  assert (Hcall : ∀ v1 v2 : W,
    (CreateObject this className interfaceName v1).1
    = (CreateObject this className interfaceName v2).1).
  { intros v1 v2. unfold CreateObject. specialize (Hloop v1 v2).
    by destruct (CreateObject_loop _ _ _ v1), (CreateObject_loop _ _ _ v2). }
  split; apply Hcall.
Qed.

End CreationFacts.

(** ** The object and the world across calls *)

Section FrameFacts.
Context {W F : Type} `{!ISpxObjectFactory W F}.
Implicit Types (factories : list F) (this : CSpxResourceManager F).
Implicit Types (className interfaceName : string) (w : W).
Implicit Types (history : list (string * string)).

Lemma CreateObject_this this className interfaceName w :
  (CreateObject this className interfaceName w).2.1 = this.
Proof.
  unfold CreateObject. by destruct (CreateObject_loop _ _ _ _).
Qed.

Lemma run_calls_this this history w :
  (run_calls this history w).2.1 = this.
Proof.
  revert this w. induction history as [|[c i] rest IH]; intros this w; [done|].
  simpl. pose proof (CreateObject_this this c i w) as Hthis.
  destruct (CreateObject this c i w) as [obj [this1 w1]]. simpl in Hthis.
  specialize (IH this1 w1).
  destruct (run_calls this1 rest w1) as [objs s]. simpl in *. congruence.
Qed.

Lemma CreateObject_loop_stateless factories className interfaceName w :
  Forall stateless factories →
  (CreateObject_loop factories className interfaceName w).2 = w.
Proof.
  intros Hall. revert w.
  induction Hall as [|factory rest Hf _ IH]; intros w; [done|].
  specialize (Hf className interfaceName w). simpl.
  destruct (factory_CreateObject factory className interfaceName w)
    as [obj w1]. simpl in Hf. subst w1.
  destruct (ptr_ne obj nullptr); [done|apply IH].
Qed.

Lemma run_calls_stateless this history w :
  Forall stateless (m_moduleFactories this) →
  (run_calls this history w).2.2 = w.
Proof.
  intros Hall. revert w.
  induction history as [|[c i] rest IH]; intros w; [done|].
  simpl. unfold CreateObject.
  pose proof (CreateObject_loop_stateless _ c i w Hall) as Hw.
  destruct (CreateObject_loop (m_moduleFactories this) c i w) as [obj w1].
  simpl in Hw. subst w1. specialize (IH w).
  by destruct (run_calls this rest w).
Qed.

(** Over factories whose answers are functions of the names alone the loop
    returns the same pointer from any two worlds. *)
Lemma CreateObject_loop_same_answer factories className interfaceName w1 w2 :
  Forall deterministic factories →
  (CreateObject_loop factories className interfaceName w1).1
  = (CreateObject_loop factories className interfaceName w2).1.
Proof.
  intros Hall. revert w1 w2.
  induction Hall as [|factory rest Hf _ IH]; intros w1 w2; [done|].
  specialize (Hf className interfaceName w1 w2). simpl.
  destruct (factory_CreateObject factory className interfaceName w1)
    as [o1 v1], (factory_CreateObject factory className interfaceName w2)
    as [o2 v2]. simpl in Hf. subst o2.
  destruct (ptr_ne o1 nullptr); [done|apply IH].
Qed.

(** C8, amended. Frame property: a call of [CreateObject] leaves the
    resource manager, and so its factory list with its contents and order,
    exactly as it found it, and so does any sequence of calls. The result
    of a call depends on earlier calls only through the state the factories
    themselves keep: when every factory's answer is a function of the class
    and interface names alone, a call returns the same pointer after any
    earlier calls as without them; when no factory changes the world, the
    whole outcome of the call is the same. *)
Theorem CreateObject_frame this history className interfaceName w :
  (CreateObject this className interfaceName w).2.1 = this
  ∧ m_moduleFactories (CreateObject this className interfaceName w).2.1
    = m_moduleFactories this
  ∧ (run_calls this history w).2.1 = this
  ∧ (Forall deterministic (m_moduleFactories this) →
     (CreateObject (run_calls this history w).2.1 className interfaceName
        (run_calls this history w).2.2).1
     = (CreateObject this className interfaceName w).1)
  ∧ (Forall stateless (m_moduleFactories this) →
     CreateObject (run_calls this history w).2.1 className interfaceName
       (run_calls this history w).2.2
     = CreateObject this className interfaceName w).
Proof.
  pose proof (CreateObject_this this className interfaceName w) as Hcall.
  pose proof (run_calls_this this history w) as Hrun.
  split; [done|]. split; [by rewrite Hcall|]. split; [done|]. split.
  - intros Hall. rewrite Hrun.
    unfold CreateObject.
    pose proof (CreateObject_loop_same_answer _ className interfaceName
                  (run_calls this history w).2.2 w Hall) as Hsame.
    by destruct (CreateObject_loop _ _ _ (run_calls this history w).2.2),
                (CreateObject_loop _ _ _ w).
  - intros Hall. by rewrite Hrun, run_calls_stateless.
Qed.

End FrameFacts.

(** ** Call records *)

Lemma calls_of_app (j : nat) (l1 l2 : list Call) :
  calls_of j (l1 ++ l2) = calls_of j l1 + calls_of j l2.
Proof. unfold calls_of. by rewrite filter_app, length_app. Qed.

Lemma calls_of_singleton (j : nat) (c : Call) :
  calls_of j [c] = if decide (call_position c = j) then 1 else 0.
Proof.
  unfold calls_of. rewrite filter_cons, filter_nil. by case_decide.
Qed.

Lemma calls_of_declined (j i : nat) (className interfaceName : string) :
  calls_of j ((λ p, MkCall p className interfaceName nullptr) <$> seq 0 i)
  = if decide (j < i) then 1 else 0.
Proof.
  induction i as [|i IH]; [done|].
  rewrite seq_S, fmap_app, calls_of_app, IH. simpl.
  rewrite calls_of_singleton. simpl.
  repeat case_decide; lia.
Qed.

Lemma calls_of_winning (j i : nat) (className interfaceName : string)
    (obj : void_ptr) :
  calls_of j (winning_calls className interfaceName i obj)
  = if decide (j ≤ i) then 1 else 0.
Proof.
  unfold winning_calls.
  rewrite calls_of_app, calls_of_declined, calls_of_singleton. simpl.
  repeat case_decide; lia.
Qed.

Section InstrumentedFacts.
Context {W F : Type} `{!ISpxObjectFactory W F}.
Implicit Types (factories : list F) (this : CSpxResourceManager F).
Implicit Types (className interfaceName : string) (w : W) (log : list Call).

(** One turn of the loop over recording factories. *)
Lemma CreateObject_loop_instrumented_cons factory k rest
    className interfaceName w log :
  CreateObject_loop (instrument_from k (factory :: rest))
    className interfaceName (w, log)
  = let r := factory_CreateObject factory className interfaceName w in
    let log' := log ++ [MkCall k className interfaceName r.1] in
    if ptr_ne r.1 nullptr then (r.1, (r.2, log'))
    else CreateObject_loop (instrument_from (S k) rest)
           className interfaceName (r.2, log').
Proof.
  simpl. unfold factory_CreateObject at 1. unfold Instrumented_factory. simpl.
  by destruct (factory_CreateObject factory className interfaceName w).
Qed.

(** Recording changes neither the answer nor the world, and every record
    carries the names the caller passed. *)
Lemma CreateObject_loop_instrumented factories k className interfaceName w log :
  ∃ calls,
    CreateObject_loop (instrument_from k factories)
      className interfaceName (w, log)
    = ((CreateObject_loop factories className interfaceName w).1,
       ((CreateObject_loop factories className interfaceName w).2,
        log ++ calls))
    ∧ length calls ≤ length factories
    ∧ Forall (λ c, call_className c = className
                   ∧ call_interfaceName c = interfaceName) calls.
Proof.
  revert k w log.
  induction factories as [|factory rest IH]; intros k w log.
  { exists []. by rewrite app_nil_r. }
  rewrite CreateObject_loop_instrumented_cons. simpl.
  destruct (factory_CreateObject factory className interfaceName w)
    as [obj w1]. simpl.
  destruct (ptr_ne obj nullptr).
  - exists [MkCall k className interfaceName obj].
    split; [done|]. split; [simpl; lia|]. by repeat constructor.
  - destruct (IH (S k) w1 (log ++ [MkCall k className interfaceName obj]))
      as (calls & Hrun & Hlen & Hargs).
    exists (MkCall k className interfaceName obj :: calls).
    rewrite Hrun, <- app_assoc. split; [done|].
    split; [simpl; lia|]. by constructor.
Qed.

(** A search that ends with a non-null pointer asked the factories at
    positions [k .. k+i] and nobody else. *)
Lemma CreateObject_loop_instrumented_win factories k
    className interfaceName w log :
  (CreateObject_loop factories className interfaceName w).1 ≠ nullptr →
  ∃ i factory,
    factories !! i = Some factory
    ∧ factory_CreateObject factory className interfaceName
        (world_before factories className interfaceName w i)
      = CreateObject_loop factories className interfaceName w
    ∧ (CreateObject_loop (instrument_from k factories)
         className interfaceName (w, log)).2.2
      = log
        ++ ((λ j, MkCall j className interfaceName nullptr) <$> seq k i)
        ++ [MkCall (k + i) className interfaceName
              (CreateObject_loop factories className interfaceName w).1].
Proof.
  revert k w log.
  induction factories as [|factory rest IH]; intros k w log Hwin; [done|].
  rewrite CreateObject_loop_instrumented_cons.
  destruct (decide
    ((factory_CreateObject factory className interfaceName w).1 = nullptr))
    as [Hnull|Hobj].
  - rewrite CreateObject_loop_decline in Hwin |- * by done.
    cbv zeta. rewrite Hnull. simpl.
    destruct (IH (S k) _ (log ++ [MkCall k className interfaceName nullptr])
                Hwin) as (i & g & Hg & Hanswer & Hlog).
    exists (S i), g. split; [done|]. split.
    + by rewrite world_before_S.
    + by rewrite Hlog, <- app_assoc, Nat.add_succ_r.
  - rewrite CreateObject_loop_win by done.
    exists 0, factory. split; [done|]. split.
    + by rewrite world_before_0.
    + cbv zeta. apply ptr_ne_spec in Hobj. rewrite Hobj. simpl.
      by rewrite Nat.add_0_r.
Qed.

(** C3. Short-circuit: when a call of [CreateObject] returns a non-null
    pointer, it is the answer of the factory at some position [i]; the
    factories that were invoked are those at positions [0 .. i-1], each once
    and each answering null, and then the one at position [i], once; the
    call counter of every later position is left as it was. *)
Theorem CreateObject_short_circuit this className interfaceName w log :
  (CreateObject this className interfaceName w).1 ≠ nullptr →
  ∃ i factory,
    m_moduleFactories this !! i = Some factory
    ∧ (factory_CreateObject factory className interfaceName
         (world_before (m_moduleFactories this) className interfaceName w i)).1
      = (CreateObject this className interfaceName w).1
    ∧ (CreateObject (instrument this) className interfaceName (w, log)).2.2.2
      = log ++ winning_calls className interfaceName i
                 (CreateObject this className interfaceName w).1
    ∧ (∀ j, j ≤ i →
         calls_of j (CreateObject (instrument this)
                       className interfaceName (w, log)).2.2.2
         = S (calls_of j log))
    ∧ (∀ j, i < j →
         calls_of j (CreateObject (instrument this)
                       className interfaceName (w, log)).2.2.2
         = calls_of j log).
Proof.
  intros Hwin. rewrite CreateObject_fst in Hwin.
  destruct (CreateObject_loop_instrumented_win _ 0 _ _ _ log Hwin)
    as (i & factory & Hi & Hanswer & Hlog).
  change (0 + i) with i in Hlog.
  exists i, factory. rewrite !CreateObject_world, !CreateObject_fst.
  unfold instrument at 1 2 3. simpl m_moduleFactories.
  rewrite Hlog. fold (winning_calls className interfaceName i
    (CreateObject_loop (m_moduleFactories this) className interfaceName w).1).
  split; [done|]. split; [by rewrite Hanswer|]. split; [done|].
  split; intros j Hj; rewrite calls_of_app, calls_of_winning;
    case_decide; lia.
Qed.

(** C9. Argument forwarding: every factory that a call of [CreateObject]
    invokes receives the class name and the interface name of that call,
    unchanged; recording the invocations changes neither the returned
    pointer nor the world. *)
Theorem CreateObject_forwards_arguments this className interfaceName w log :
  ∃ calls,
    (CreateObject (instrument this) className interfaceName (w, log)).2.2.2
    = log ++ calls
    ∧ Forall (λ c, call_className c = className
                   ∧ call_interfaceName c = interfaceName) calls
    ∧ (CreateObject (instrument this) className interfaceName (w, log)).1
      = (CreateObject this className interfaceName w).1
    ∧ (CreateObject (instrument this) className interfaceName (w, log)).2.2.1
      = (CreateObject this className interfaceName w).2.2.
Proof.
  destruct (CreateObject_loop_instrumented (m_moduleFactories this) 0
              className interfaceName w log) as (calls & Hrun & _ & Hargs).
  exists calls. rewrite !CreateObject_world, !CreateObject_fst.
  unfold instrument. simpl m_moduleFactories. by rewrite Hrun.
Qed.

End InstrumentedFacts.

(** ** The list the constructor builds *)

(** The constructor treats the resolver as a black box: the list it builds
    is the image under [Get] of the names it resolves. *)
Lemma ctor_resolved {F : Type} (Get : string → F) (m : Macros) :
  m_moduleFactories (CSpxResourceManager_ctor Get m) = Get <$> resolved_names m.
Proof. by destruct m as [[] []]. Qed.

(** C10. Concrete list contents per platform: the constructor builds, on
    the Linux branch, the four handles of [libcarbon-mock.so], the [pma]
    and [kws] extension libraries ([.so]) and [carbon], in this order; on
    the macOS branch the same four with [.dylib] names; and on the remaining
    branch five handles: [carbon-mock.dll], the two extension [.dll]s,
    [carbon], and after it [carbon-unidec.dll]. *)
Theorem ctor_module_lists {F : Type} (Get : string → F) (m : Macros) :
  m_moduleFactories (CSpxResourceManager_ctor Get m)
  = match branch_of m with
    | Linux =>
        [Get "libcarbon-mock.so";
         Get "libMicrosoft.CognitiveServices.Speech.extension.pma.so";
         Get "libMicrosoft.CognitiveServices.Speech.extension.kws.so";
         Get "carbon"]
    | MacOS =>
        [Get "libcarbon-mock.dylib";
         Get "libMicrosoft.CognitiveServices.Speech.extension.pma.dylib";
         Get "libMicrosoft.CognitiveServices.Speech.extension.kws.dylib";
         Get "carbon"]
    | Windows =>
        [Get "carbon-mock.dll";
         Get "Microsoft.CognitiveServices.Speech.extension.pma.dll";
         Get "Microsoft.CognitiveServices.Speech.extension.kws.dll";
         Get "carbon";
         Get "carbon-unidec.dll"]
    end
  ∧ length (m_moduleFactories (CSpxResourceManager_ctor Get m))
    = match branch_of m with Windows => 5 | _ => 4 end.
Proof.
  destruct m as [[] []]; split; reflexivity.
Qed.

(** C5, as stated, fails on the branch taken when neither [__linux__] nor
    [__MACH__] holds: with handles identified by their names, the last entry
    there is not the handle of ["carbon"]. *)
Lemma ctor_last_entry_windows :
  last (m_moduleFactories (CSpxResourceManager_ctor (λ name, name) windows))
  ≠ Some "carbon".
Proof.
  vm_compute. discriminate.
Qed.

(** C5, amended. On every branch the core module, the handle obtained for
    ["carbon"], is the fourth entry. On the Linux and macOS branches it is
    the last entry, with nothing after it; on the remaining branch exactly
    one entry follows it, the handle obtained for ["carbon-unidec.dll"],
    which is the last. *)
Theorem ctor_core_entry {F : Type} (Get : string → F) (m : Macros) :
  m_moduleFactories (CSpxResourceManager_ctor Get m) !! 3 = Some (Get "carbon")
  ∧ match branch_of m with
    | Linux | MacOS =>
        last (m_moduleFactories (CSpxResourceManager_ctor Get m))
        = Some (Get "carbon")
        ∧ drop 4 (m_moduleFactories (CSpxResourceManager_ctor Get m)) = []
    | Windows =>
        last (m_moduleFactories (CSpxResourceManager_ctor Get m))
        = Some (Get "carbon-unidec.dll")
        ∧ drop 4 (m_moduleFactories (CSpxResourceManager_ctor Get m))
          = [Get "carbon-unidec.dll"]
    end.
Proof.
  destruct m as [[] []]; repeat split; reflexivity.
Qed.

(** C6, as stated, fails: the branch taken when neither [__linux__] nor
    [__MACH__] holds resolves a module, [carbon-unidec], that the Linux
    branch does not, so the two lists of logical modules differ. *)
Lemma ctor_logical_modules_differ :
  logical_name <$> resolved_names windows
  ≠ logical_name <$> resolved_names linux.
Proof.
  vm_compute. discriminate.
Qed.

(** C6, amended. On all three branches the first four entries are the same
    logical modules in the same order: the mock, the [pma] extension, the
    [kws] extension, the core; the names passed to the resolver differ only
    in the [lib] prefix and the library suffix. The Linux and macOS lists
    end there; the remaining branch has one more entry after the core,
    [carbon-unidec]. *)
Theorem ctor_logical_order (m : Macros) :
  take 4 (logical_name <$> resolved_names m)
  = ["carbon-mock";
     "Microsoft.CognitiveServices.Speech.extension.pma";
     "Microsoft.CognitiveServices.Speech.extension.kws";
     "carbon"]
  ∧ drop 4 (logical_name <$> resolved_names m)
    = match branch_of m with
      | Linux | MacOS => []
      | Windows => ["carbon-unidec"]
      end.
Proof.
  destruct m as [[] []]; split; vm_compute; reflexivity.
Qed.

(** The first resolved name is the mock module; the names after it are
    production modules. *)
Lemma resolved_names_mock_first (m : Macros) :
  ∃ production,
    resolved_names m = mock_module m :: production
    ∧ Forall (λ name, logical_name name ≠ "carbon-mock") production.
Proof.
  destruct m as [[] []]; eexists; (split; [reflexivity|]);
    repeat constructor; vm_compute; discriminate.
Qed.

Section MockOverride.
Context {W F : Type} `{!ISpxObjectFactory W F}.
Variable Get : string → F.

(** C2. Mock override: on every branch the first name the constructor
    resolves is the mock module and no later name is, so the mock's handle
    stands before every production handle. When the mock factory answers
    non-null for a pair, [CreateObject] on the constructed resource manager
    returns the mock's answer, and the mock is the only factory invoked: no
    production factory is asked. *)
Theorem ctor_mock_override (m : Macros)
    (className interfaceName : string) (w : W) :
  (factory_CreateObject (Get (mock_module m)) className interfaceName w).1
  ≠ nullptr →
  logical_name (mock_module m) = "carbon-mock"
  ∧ (∃ production,
       m_moduleFactories (CSpxResourceManager_ctor Get m)
       = Get (mock_module m) :: (Get <$> production)
       ∧ Forall (λ name, logical_name name ≠ "carbon-mock") production)
  ∧ CreateObject (CSpxResourceManager_ctor Get m) className interfaceName w
    = (let r := factory_CreateObject (Get (mock_module m))
                  className interfaceName w in
       (r.1, (CSpxResourceManager_ctor Get m, r.2)))
  ∧ ∀ log,
      (CreateObject (instrument (CSpxResourceManager_ctor Get m))
         className interfaceName (w, log)).2.2.2
      = log ++ [MkCall 0 className interfaceName
                  (factory_CreateObject (Get (mock_module m))
                     className interfaceName w).1].
Proof.
  intros Hmock.
  destruct (resolved_names_mock_first m) as (production & Hnames & Hprod).
  assert (Hlist : m_moduleFactories (CSpxResourceManager_ctor Get m)
                  = Get (mock_module m) :: (Get <$> production)).
  { by rewrite ctor_resolved, Hnames. }
  split; [by destruct m as [[] []]|].
  split; [by exists production|].
  split.
  - unfold CreateObject. rewrite Hlist, CreateObject_loop_win by done.
    by destruct (factory_CreateObject _ _ _ _).
  - intros log. rewrite CreateObject_world. unfold instrument.
    simpl m_moduleFactories. rewrite Hlist.
    rewrite CreateObject_loop_instrumented_cons. cbv zeta.
    apply ptr_ne_spec in Hmock. by rewrite Hmock.
Qed.

End MockOverride.

(** ** The scenario of the specification, and the theorems at work *)

(** A mock ahead of the real factory: ["A"]/["IA"] goes to the mock,
    ["B"]/["IB"] to the real factory, ["C"]/["IC"] to nobody. *)
Example scenario_A :
  (CreateObject (MkResourceManager [MockFactory; RealFactory]) "A" "IA" ()).1
  = token_M.
Proof. reflexivity. Qed.

Example scenario_B :
  (CreateObject (MkResourceManager [MockFactory; RealFactory]) "B" "IB" ()).1
  = token_S.
Proof. reflexivity. Qed.

Example scenario_C :
  (CreateObject (MkResourceManager [MockFactory; RealFactory]) "C" "IC" ()).1
  = nullptr.
Proof. reflexivity. Qed.

(** Priority, over recording stubs: the real factory at position 1 wins
    ["B"]/["IB"] after the mock at position 0 declined. *)
Lemma CreateObject_priority_witness :
  CreateObject (instrument (MkResourceManager [MockFactory; RealFactory]))
    "B" "IB" ((), [])
  = (token_S,
     (instrument (MkResourceManager [MockFactory; RealFactory]),
      ((), [MkCall 0 "B" "IB" nullptr; MkCall 1 "B" "IB" token_S]))).
Proof.
  refine (CreateObject_priority
            (instrument (MkResourceManager [MockFactory; RealFactory]))
            "B" "IB" ((), []) 1 (MkInstrumented RealFactory 1) _ _ _).
  - reflexivity.
  - intros j g Hj Hg. destruct j as [|j]; [|lia].
    injection Hg as <-. reflexivity.
  - vm_compute. discriminate.
Defined.

(** Exhaustion: nobody builds ["C"]/["IC"], and an empty list builds
    nothing. *)
Lemma CreateObject_exhaustion_witness :
  CreateObject (MkResourceManager [MockFactory; RealFactory]) "C" "IC" ()
  = (nullptr, (MkResourceManager [MockFactory; RealFactory], ()))
  ∧ CreateObject (MkResourceManager ([] : list StubFactory)) "A" "IA" ()
    = (nullptr, (MkResourceManager [], ())).
Proof.
  split.
  - refine (CreateObject_exhaustion
              (MkResourceManager [MockFactory; RealFactory]) "C" "IC" () _).
    intros j g Hg. destruct j as [|[|j]]; simpl in Hg.
    + injection Hg as <-. reflexivity.
    + injection Hg as <-. reflexivity.
    + discriminate.
  - refine (CreateObject_exhaustion
              (MkResourceManager ([] : list StubFactory)) "A" "IA" () _).
    intros j g Hg. destruct j; discriminate.
Defined.

Lemma StubFactory_deterministic (k : nat) (factory : StubFactory) :
  deterministic (W := unit * list Call) (MkInstrumented factory k).
Proof. intros className interfaceName [[] log1] [[] log2]. reflexivity. Qed.

(** Determinism: the same request in two worlds with different call logs. *)
Lemma CreateObject_deterministic_witness :
  (CreateObject (instrument (MkResourceManager [MockFactory; RealFactory]))
     "B" "IB" ((), [])).1
  = (CreateObject (instrument (MkResourceManager [MockFactory; RealFactory]))
       "B" "IB" ((), [MkCall 1 "A" "IA" token_R])).1
  ∧ (CreateObject (instrument (MkResourceManager [MockFactory; RealFactory]))
       "B" "IB"
       (CreateObject
          (instrument (MkResourceManager [MockFactory; RealFactory]))
          "B" "IB" ((), [])).2.2).1
    = (CreateObject (instrument (MkResourceManager [MockFactory; RealFactory]))
         "B" "IB" ((), [])).1.
Proof.
  refine (CreateObject_deterministic
            (instrument (MkResourceManager [MockFactory; RealFactory]))
            "B" "IB" ((), []) ((), [MkCall 1 "A" "IA" token_R]) _).
  simpl. repeat constructor; apply StubFactory_deterministic.
Defined.

Lemma StubFactory_stateless (factory : StubFactory) : stateless factory.
Proof. intros className interfaceName []. reflexivity. Qed.

(** C8, as stated, fails: a factory of singletons builds ["A"]/["IA"] on the
    first call and declines it on the second, so the result of the second
    call depends on the first having been made. *)
Lemma CreateObject_depends_on_earlier_call :
  (CreateObject
     (run_calls (MkResourceManager [Limited 1 [("A", "IA", token_M)]])
        [("A", "IA")] 0).2.1
     "A" "IA"
     (run_calls (MkResourceManager [Limited 1 [("A", "IA", token_M)]])
        [("A", "IA")] 0).2.2).1
  ≠ (CreateObject (MkResourceManager [Limited 1 [("A", "IA", token_M)]])
       "A" "IA" 0).1.
Proof.
  vm_compute. discriminate.
Qed.

(** The frame over recording stubs: two earlier calls change the world,
    which now holds their call records, and the third call still returns
    what it returns without them. *)
Lemma CreateObject_frame_witness :
  (CreateObject
     (run_calls (instrument (MkResourceManager [MockFactory; RealFactory]))
        [("A", "IA"); ("C", "IC")] ((), [])).2.1
     "B" "IB"
     (run_calls (instrument (MkResourceManager [MockFactory; RealFactory]))
        [("A", "IA"); ("C", "IC")] ((), [])).2.2).1
  = (CreateObject (instrument (MkResourceManager [MockFactory; RealFactory]))
       "B" "IB" ((), [])).1
  ∧ (run_calls (instrument (MkResourceManager [MockFactory; RealFactory]))
       [("A", "IA"); ("C", "IC")] ((), [])).2.2
    ≠ ((), []).
Proof.
  split.
  - refine (proj1 (proj2 (proj2 (proj2
              (CreateObject_frame
                 (instrument (MkResourceManager [MockFactory; RealFactory]))
                 [("A", "IA"); ("C", "IC")] "B" "IB" ((), []))))) _).
    simpl. repeat constructor; apply StubFactory_deterministic.
  - vm_compute. discriminate.
Defined.

(** Short-circuit: the mock wins ["A"]/["IA"] and the real factory behind
    it is never asked. *)
Lemma CreateObject_short_circuit_witness :
  ∃ i factory,
    [MockFactory; RealFactory] !! i = Some factory
    ∧ (factory_CreateObject factory "A" "IA"
         (world_before [MockFactory; RealFactory] "A" "IA" () i)).1
      = (CreateObject (MkResourceManager [MockFactory; RealFactory])
           "A" "IA" ()).1
    ∧ (CreateObject
         (instrument (MkResourceManager [MockFactory; RealFactory]))
         "A" "IA" ((), [])).2.2.2
      = [] ++ winning_calls "A" "IA" i
                (CreateObject (MkResourceManager [MockFactory; RealFactory])
                   "A" "IA" ()).1
    ∧ (∀ j, j ≤ i →
         calls_of j
           (CreateObject
              (instrument (MkResourceManager [MockFactory; RealFactory]))
              "A" "IA" ((), [])).2.2.2
         = S (calls_of j []))
    ∧ (∀ j, i < j →
         calls_of j
           (CreateObject
              (instrument (MkResourceManager [MockFactory; RealFactory]))
              "A" "IA" ((), [])).2.2.2
         = calls_of j []).
Proof.
  refine (CreateObject_short_circuit
            (MkResourceManager [MockFactory; RealFactory]) "A" "IA" () [] _).
  vm_compute. discriminate.
Defined.

(** Mock override on the constructed list: the mock module and the core
    module both build ["Foo"]/["IFoo"]; the mock's token comes back, the
    core's does not, and only position 0 was asked. *)
Lemma ctor_mock_override_witness :
  (CreateObject (CSpxResourceManager_ctor stub_Get windows) "Foo" "IFoo" ()).1
  = token_M
  ∧ (factory_CreateObject (stub_Get "carbon") "Foo" "IFoo" ()).1 = token_R
  ∧ (CreateObject (instrument (CSpxResourceManager_ctor stub_Get windows))
       "Foo" "IFoo" ((), [])).2.2.2
    = [MkCall 0 "Foo" "IFoo" token_M].
Proof.
  destruct (ctor_mock_override stub_Get windows "Foo" "IFoo" ())
    as (_ & _ & Hcall & Hlog).
  - vm_compute. discriminate.
  - split; [by rewrite Hcall|]. split; [reflexivity|]. apply (Hlog []).
Defined.

(** * Further properties of the search *)

Section SearchFacts.
Context {W F : Type} `{!ISpxObjectFactory W F}.
Implicit Types (factories front back : list F) (this : CSpxResourceManager F).
Implicit Types (className interfaceName : string) (w : W).

(** The loop over a concatenation searches the first list, and the second
    one only when the first came back with null. *)
Lemma CreateObject_loop_app front back className interfaceName w :
  CreateObject_loop (front ++ back) className interfaceName w
  = let r1 := CreateObject_loop front className interfaceName w in
    if ptr_ne r1.1 nullptr then r1
    else CreateObject_loop back className interfaceName r1.2.
Proof.
  revert w. induction front as [|factory front IH]; intros w; [done|].
  simpl. destruct (factory_CreateObject factory className interfaceName w)
    as [obj w1].
  destruct (ptr_ne obj nullptr) eqn:Hobj; simpl.
  - by rewrite Hobj.
  - apply IH.
Qed.

(** The loop returns null exactly when everybody declined. *)
Lemma CreateObject_loop_null factories className interfaceName w :
  (CreateObject_loop factories className interfaceName w).1 = nullptr →
  all_decline factories className interfaceName w.
Proof.
  revert w. induction factories as [|factory rest IH]; intros w Hnull j g Hg.
  { destruct j; discriminate. }
  destruct (decide
    ((factory_CreateObject factory className interfaceName w).1 = nullptr))
    as [Hdecl|Hwin].
  - rewrite CreateObject_loop_decline in Hnull by done.
    destruct j as [|j].
    + injection Hg as <-. by rewrite world_before_0.
    + rewrite world_before_S. by apply (IH _ Hnull j g).
  - rewrite CreateObject_loop_win in Hnull by done. done.
Qed.

Lemma CreateObject_pair this className interfaceName w :
  CreateObject this className interfaceName w
  = ((CreateObject_loop (m_moduleFactories this) className interfaceName w).1,
     (this,
      (CreateObject_loop (m_moduleFactories this) className interfaceName w).2)).
Proof. unfold CreateObject. by destruct (CreateObject_loop _ _ _ _). Qed.

(** X1. Searching a list that is two lists one after the other: the
    factories of the first list are searched first; when one of them builds
    the object that is the outcome and no factory of the second list is
    reached; when none does, the outcome is that of searching the second list
    in the world the first search left. *)
Theorem CreateObject_concat front back className interfaceName w :
  CreateObject (MkResourceManager (front ++ back)) className interfaceName w
  = let r1 := CreateObject (MkResourceManager front) className interfaceName w in
    if ptr_ne r1.1 nullptr
    then (r1.1, (MkResourceManager (front ++ back), r1.2.2))
    else
      let r2 := CreateObject (MkResourceManager back)
                  className interfaceName r1.2.2 in
      (r2.1, (MkResourceManager (front ++ back), r2.2.2)).
Proof.
  unfold CreateObject. simpl m_moduleFactories.
  rewrite CreateObject_loop_app. cbv zeta.
  destruct (CreateObject_loop front className interfaceName w) as [o1 w1].
  simpl. destruct (ptr_ne o1 nullptr); [done|].
  by destruct (CreateObject_loop back className interfaceName w1).
Qed.

(** X3. [CreateObject] returns the null pointer if and only if every factory
    of the list, asked in its turn, answered null: a null result never hides
    a factory that would have built the object. *)
Theorem CreateObject_null_iff this className interfaceName w :
  (CreateObject this className interfaceName w).1 = nullptr
  ↔ all_decline (m_moduleFactories this) className interfaceName w.
Proof.
  rewrite CreateObject_fst. split.
  - apply CreateObject_loop_null.
  - intros Hall.
    rewrite <- (app_nil_r (m_moduleFactories this)).
    by rewrite CreateObject_loop_skip.
Qed.

(** X5. A factory that builds nothing and touches nothing is invisible:
    wherever it stands in the list, [CreateObject] returns the same pointer
    and leaves the same world as on the list without it. *)
Theorem CreateObject_skips_inert front factory back className interfaceName w :
  inert factory →
  (CreateObject (MkResourceManager (front ++ factory :: back))
     className interfaceName w).1
  = (CreateObject (MkResourceManager (front ++ back)) className interfaceName w).1
  ∧ (CreateObject (MkResourceManager (front ++ factory :: back))
       className interfaceName w).2.2
    = (CreateObject (MkResourceManager (front ++ back))
         className interfaceName w).2.2.
Proof.
  intros Hinert. rewrite !CreateObject_fst, !CreateObject_world.
  simpl m_moduleFactories.
  assert (Hsame :
    CreateObject_loop (front ++ factory :: back) className interfaceName w
    = CreateObject_loop (front ++ back) className interfaceName w).
  { rewrite !CreateObject_loop_app. cbv zeta.
    destruct (ptr_ne _ nullptr); [done|].
    rewrite CreateObject_loop_decline by by rewrite Hinert.
    by rewrite Hinert. }
  by rewrite Hsame.
Qed.

(** X6. [CreateObject] changes the world only through the factories it
    consults. Over stateless factories it leaves the world as it was,
    whether the request is granted or not; and when such a list grants the
    request, the world stays as it was whatever factories stand behind it,
    stateful ones included, since they are not reached. *)
Theorem CreateObject_stateless_world front className interfaceName w :
  Forall stateless front →
  (CreateObject (MkResourceManager front) className interfaceName w).2.2 = w
  ∧ ((CreateObject (MkResourceManager front) className interfaceName w).1
     ≠ nullptr →
     ∀ back,
       (CreateObject (MkResourceManager (front ++ back))
          className interfaceName w).2.2 = w
       ∧ (CreateObject (MkResourceManager (front ++ back))
            className interfaceName w).1
         = (CreateObject (MkResourceManager front)
              className interfaceName w).1).
Proof.
  intros Hall.
  pose proof (CreateObject_loop_stateless front className interfaceName w Hall)
    as Hw.
  rewrite !CreateObject_fst, !CreateObject_world. simpl m_moduleFactories.
  split; [done|]. intros Hobj back.
  rewrite !CreateObject_fst, !CreateObject_world. simpl m_moduleFactories.
  rewrite CreateObject_loop_app. cbv zeta.
  apply ptr_ne_spec in Hobj. by rewrite Hobj.
Qed.

(** Over stateless factories the loop returns null when all of them answer
    null in the starting world, and otherwise the answer of one of them. *)
Lemma CreateObject_loop_stateless_answer factories className interfaceName w :
  Forall stateless factories →
  ((CreateObject_loop factories className interfaceName w).1 = nullptr
   ∧ ∀ f, f ∈ factories →
       (factory_CreateObject f className interfaceName w).1 = nullptr)
  ∨ ((CreateObject_loop factories className interfaceName w).1 ≠ nullptr
     ∧ ∃ f, f ∈ factories
         ∧ (factory_CreateObject f className interfaceName w).1
           = (CreateObject_loop factories className interfaceName w).1).
Proof.
  induction 1 as [|factory rest Hf _ IH].
  { left. split; [done|]. intros f Hin. by apply elem_of_nil in Hin. }
  destruct (decide
    ((factory_CreateObject factory className interfaceName w).1 = nullptr))
    as [Hdecl|Hwin].
  - rewrite CreateObject_loop_decline by done.
    rewrite (Hf className interfaceName w).
    destruct IH as [[Hnull Hall]|[Hobj (f & Hin & Hans)]].
    + left. split; [done|]. intros f Hin.
      apply elem_of_cons in Hin as [->|Hin]; [done|by apply Hall].
    + right. split; [done|]. exists f. split; [by apply list_elem_of_further|done].
  - rewrite CreateObject_loop_win by done. right. split; [done|].
    exists factory. split; [apply list_elem_of_here|done].
Qed.

(** X7. The order of the list matters only for requests that two factories
    answer differently: over stateless factories that agree on a pair, any
    reordering of the list gives the same pointer for that pair. *)
Theorem CreateObject_order_irrelevant front back className interfaceName w :
  front ≡ₚ back →
  Forall stateless front →
  agree front className interfaceName w →
  (CreateObject (MkResourceManager front) className interfaceName w).1
  = (CreateObject (MkResourceManager back) className interfaceName w).1.
Proof.
  intros Hperm Hst1 Hagree.
  assert (Hst2 : Forall stateless back) by by rewrite <- Hperm.
  rewrite !CreateObject_fst. simpl m_moduleFactories.
  destruct (CreateObject_loop_stateless_answer front className interfaceName w Hst1)
    as [[Hn1 Hall1]|[Ho1 (f1 & Hin1 & Ha1)]];
  destruct (CreateObject_loop_stateless_answer back className interfaceName w Hst2)
    as [[Hn2 Hall2]|[Ho2 (f2 & Hin2 & Ha2)]].
  - congruence.
  - rewrite <- Hperm in Hin2. specialize (Hall1 f2 Hin2). congruence.
  - rewrite Hperm in Hin1. specialize (Hall2 f1 Hin1). congruence.
  - rewrite <- Hperm in Hin2. rewrite <- Ha1, <- Ha2.
    apply Hagree; [done|done|congruence|congruence].
Qed.

End SearchFacts.

Section AddModuleFacts.
Context {W F : Type} `{!ISpxObjectFactory W F}.
Variable Get : string → F.

(** X2. A module added to the list stands behind those already there. A
    request that the list already grants is granted as before and the new
    module is not reached; a request that the list declines is answered by
    the new module, asked in the world the others left. *)
Theorem add_module_behind (this : CSpxResourceManager F) (name : string)
    (className interfaceName : string) (w : W) :
  ((CreateObject this className interfaceName w).1 ≠ nullptr →
   CreateObject (add_module Get this name) className interfaceName w
   = ((CreateObject this className interfaceName w).1,
      (add_module Get this name,
       (CreateObject this className interfaceName w).2.2)))
  ∧ ((CreateObject this className interfaceName w).1 = nullptr →
     CreateObject (add_module Get this name) className interfaceName w
     = let a := factory_CreateObject (Get name) className interfaceName
                  (CreateObject this className interfaceName w).2.2 in
       (a.1, (add_module Get this name, a.2))).
Proof.
  pose proof (CreateObject_loop_app (m_moduleFactories this) [Get name]
                className interfaceName w) as Hloop.
  change (m_moduleFactories this ++ [Get name])
    with (m_moduleFactories (add_module Get this name)) in Hloop.
  rewrite CreateObject_fst, CreateObject_world.
  rewrite (CreateObject_pair (add_module Get this name)), Hloop. cbv zeta.
  destruct (CreateObject_loop (m_moduleFactories this) className interfaceName w)
    as [obj w1]. simpl.
  split.
  - intros Hobj. apply ptr_ne_spec in Hobj. by rewrite Hobj.
  - intros ->. simpl.
    destruct (factory_CreateObject (Get name) className interfaceName w1)
      as [a w2]. simpl.
    destruct (ptr_ne a nullptr) eqn:Ha; [done|].
    unfold ptr_ne in Ha. apply negb_false_iff, N.eqb_eq in Ha. by subst a.
Qed.

End AddModuleFacts.

Section AskedFacts.
Context {W F : Type} `{!ISpxObjectFactory W F}.
Implicit Types (factories : list F) (this : CSpxResourceManager F).
Implicit Types (className interfaceName : string) (w : W) (log : list Call).

(** A search that ends with null has asked the whole list. *)
Lemma CreateObject_loop_instrumented_null factories k
    className interfaceName w log :
  (CreateObject_loop factories className interfaceName w).1 = nullptr →
  (CreateObject_loop (instrument_from k factories)
     className interfaceName (w, log)).2.2
  = log ++ ((λ j, MkCall j className interfaceName nullptr)
              <$> seq k (length factories)).
Proof.
  revert k w log.
  induction factories as [|factory rest IH]; intros k w log Hnull.
  { simpl. by rewrite app_nil_r. }
  rewrite CreateObject_loop_instrumented_cons.
  destruct (decide
    ((factory_CreateObject factory className interfaceName w).1 = nullptr))
    as [Hdecl|Hwin].
  - rewrite CreateObject_loop_decline in Hnull by done.
    cbv zeta. rewrite Hdecl. simpl.
    by rewrite (IH (S k) _ _ Hnull), <- app_assoc.
  - rewrite CreateObject_loop_win in Hnull by done. done.
Qed.

(** X4. When [CreateObject] returns the null pointer it has invoked every
    factory of the list exactly once, in list order, each with the names of
    the call and each answering null; a factory that stands in the list
    twice is asked twice. *)
Theorem CreateObject_null_asks_all this className interfaceName w log :
  (CreateObject this className interfaceName w).1 = nullptr →
  (CreateObject (instrument this) className interfaceName (w, log)).2.2.2
  = log ++ ((λ j, MkCall j className interfaceName nullptr)
              <$> seq 0 (length (m_moduleFactories this)))
  ∧ (∀ j, j < length (m_moduleFactories this) →
       calls_of j (CreateObject (instrument this)
                     className interfaceName (w, log)).2.2.2
       = S (calls_of j log))
  ∧ (∀ j, length (m_moduleFactories this) ≤ j →
       calls_of j (CreateObject (instrument this)
                     className interfaceName (w, log)).2.2.2
       = calls_of j log).
Proof.
  intros Hnull. rewrite CreateObject_fst in Hnull.
  rewrite CreateObject_world. unfold instrument. simpl m_moduleFactories.
  rewrite (CreateObject_loop_instrumented_null _ 0 _ _ _ log Hnull).
  split; [done|].
  split; intros j Hj; rewrite calls_of_app, calls_of_declined;
    case_decide; lia.
Qed.

End AskedFacts.

(** * The test runner *)

(** X8. [HandleDebugAssert] answers 1 whatever the report type, adds one
    line with the message to [stderr] and calls nothing of the harness.
    Given a return slot it stores 0 there and leaves every other cell of
    memory alone; given the null pointer it stores nothing. *)
Theorem HandleDebugAssert_effect (reportType : Z) (message : string)
    (returnValue : void_ptr) (m : Machine) :
  (HandleDebugAssert reportType message returnValue m).1 = 1%Z
  ∧ stderr_out (HandleDebugAssert reportType message returnValue m).2
    = stderr_out m +:+ ("C-Runtime: " +:+ message +:+ newline)
  ∧ trace (HandleDebugAssert reportType message returnValue m).2 = trace m
  ∧ (returnValue ≠ nullptr →
     int_mem (HandleDebugAssert reportType message returnValue m).2
       !! returnValue = Some 0%Z
     ∧ ∀ q, q ≠ returnValue →
         int_mem (HandleDebugAssert reportType message returnValue m).2 !! q
         = int_mem m !! q)
  ∧ (returnValue = nullptr →
     int_mem (HandleDebugAssert reportType message returnValue m).2
     = int_mem m).
Proof.
  unfold HandleDebugAssert. simpl.
  destruct (ptr_ne returnValue nullptr) eqn:Hp; simpl.
  - apply ptr_ne_spec in Hp. do 3 (split; [done|]). split; [|done].
    intros _. split; [apply lookup_insert_eq|].
    intros q Hq. by rewrite lookup_insert_ne.
  - unfold ptr_ne in Hp. apply negb_false_iff, N.eqb_eq in Hp.
    do 3 (split; [done|]). split; done.
Qed.

Lemma new_events_app (m : Machine) (text : string) (mem : gmap N Z)
    (events : list Event) :
  new_events m (MkMachine text mem (trace m ++ events)) = events.
Proof. unfold new_events. simpl. by rewrite drop_app_length. Qed.

(** Case analysis on what the preprocessor and the harness decide. *)
Ltac main_cases o mm :=
  destruct mm as [[] []], o as [hook_rc' [] cli_rc' run_rc'];
  unfold main_recorded, main, main_session, hook_fails;
  simpl;
  try destruct (Z.eqb hook_rc' (-1)) eqn:?;
  try destruct (Z.eqb cli_rc' 0) eqn:?;
  simpl; unfold record_event; simpl; rewrite <- ?app_assoc; simpl.

(** X9. The calls [main] makes, in order. When the hook registration
    fails they are that registration alone. Otherwise: the registration
    (in MSVC debug builds only), the signal handlers, the construction of the
    session, the discovery check, the loading of the configuration unless
    the run is a discovery, the parsing of the command line, the run of the
    session when the parsing returned 0, and the destruction of the session
    on every path. *)
Theorem main_calls (o : Oracle) (mm : MainMacros)
    (argc : Z) (argv : list string) (m : Machine) :
  new_events m (main_recorded o mm argc argv m).2
  = if hook_fails o mm then [EvHookInstall 0]
    else
      (if defined_MSC_VER mm && defined_DEBUG mm
       then [EvHookInstall 0] else [])
      ++ [EvSignalHandlers; EvSessionCreated; EvDiscovery argc argv]
      ++ (if discovery o then [] else [EvLoadConfig (head argv)])
      ++ [EvParseCli argc argv]
      ++ (if Z.eqb (cli_rc o) 0 then [EvSessionRun] else [])
      ++ [EvSessionDestroyed].
Proof.
  main_cases o mm; apply new_events_app.
Qed.

(** X10. The exit code of [main]: -1 when the hook registration fails; the
    result of parsing the command line when that is not 0, and then the
    session is not run; the result of running the session otherwise. The
    session is run exactly when the registration did not fail and the
    parsing returned 0. [main] writes to [stderr] only when the registration
    fails, and never stores to memory. *)
Theorem main_exit_code (o : Oracle) (mm : MainMacros)
    (argc : Z) (argv : list string) (m : Machine) :
  (main_recorded o mm argc argv m).1
  = (if hook_fails o mm then (-1)%Z
     else if Z.eqb (cli_rc o) 0 then run_rc o else cli_rc o)
  ∧ (EvSessionRun ∈ new_events m (main_recorded o mm argc argv m).2
     ↔ hook_fails o mm = false ∧ cli_rc o = 0%Z)
  ∧ stderr_out (main_recorded o mm argc argv m).2
    = (if hook_fails o mm
       then stderr_out m +:+ ("_CrtSetReportHook2 failed." +:+ newline)
       else stderr_out m)
  ∧ int_mem (main_recorded o mm argc argv m).2 = int_mem m.
Proof.
  split; [by main_cases o mm|].
  split; [|by main_cases o mm].
  rewrite main_calls.
  destruct (hook_fails o mm).
  { rewrite list_elem_of_singleton. intuition (discriminate || congruence). }
  rewrite !elem_of_app, !elem_of_cons, !elem_of_nil.
  destruct (Z.eqb (cli_rc o) 0) eqn:Hrc.
  - apply Z.eqb_eq in Hrc. rewrite list_elem_of_singleton.
    destruct (defined_MSC_VER mm && defined_DEBUG mm), (discovery o);
      intuition (discriminate || congruence).
  - apply Z.eqb_neq in Hrc. rewrite !elem_of_nil.
    destruct (defined_MSC_VER mm && defined_DEBUG mm), (discovery o);
      rewrite ?list_elem_of_singleton, ?elem_of_nil; intuition (discriminate || congruence).
Qed.

(** X11. The configuration is loaded exactly when the hook registration
    did not fail and the run is not a test discovery; it is loaded once,
    from [argv[0]], and right before the command line is parsed. *)
Theorem main_loads_config (o : Oracle) (mm : MainMacros)
    (argc : Z) (argv : list string) (m : Machine) :
  (∀ path,
     EvLoadConfig path ∈ new_events m (main_recorded o mm argc argv m).2
     ↔ hook_fails o mm = false ∧ discovery o = false ∧ path = head argv)
  ∧ (hook_fails o mm = false → discovery o = false →
     ∃ before after,
       new_events m (main_recorded o mm argc argv m).2
       = before ++ [EvLoadConfig (head argv); EvParseCli argc argv] ++ after
       ∧ (∀ path, EvLoadConfig path ∉ before)
       ∧ (∀ path, EvLoadConfig path ∉ after)).
Proof.
  rewrite main_calls. split.
  - intros path. destruct (hook_fails o mm).
    { rewrite list_elem_of_singleton. intuition (discriminate || congruence). }
    rewrite !elem_of_app, !elem_of_cons, !elem_of_nil.
    destruct (defined_MSC_VER mm && defined_DEBUG mm), (discovery o),
      (Z.eqb (cli_rc o) 0);
      rewrite ?list_elem_of_singleton, ?elem_of_nil; intuition (discriminate || congruence).
  - intros -> ->.
    exists ((if defined_MSC_VER mm && defined_DEBUG mm
             then [EvHookInstall 0] else [])
            ++ [EvSignalHandlers; EvSessionCreated; EvDiscovery argc argv]),
           ((if Z.eqb (cli_rc o) 0 then [EvSessionRun] else [])
            ++ [EvSessionDestroyed]).
    split; [by rewrite <- !app_assoc|].
    split; intros path;
      destruct (defined_MSC_VER mm && defined_DEBUG mm), (Z.eqb (cli_rc o) 0);
      simpl; rewrite ?elem_of_cons, ?elem_of_nil; intuition (discriminate || congruence).
Qed.

(** * The further properties at work *)

(** A module added behind the mock: ["A"]/["IA"] still goes to the mock,
    ["Foo"]/["IFoo"], which the mock declines, reaches the new module. *)
Lemma add_module_behind_witness :
  CreateObject (add_module stub_Get (MkResourceManager [MockFactory]) "carbon")
    "A" "IA" ()
  = (token_M,
     (add_module stub_Get (MkResourceManager [MockFactory]) "carbon", ()))
  ∧ CreateObject
      (add_module stub_Get (MkResourceManager [MockFactory]) "carbon")
      "Foo" "IFoo" ()
    = (token_R,
       (add_module stub_Get (MkResourceManager [MockFactory]) "carbon", ())).
Proof.
  split.
  - refine (proj1 (add_module_behind stub_Get
                     (MkResourceManager [MockFactory]) "carbon" "A" "IA" ()) _).
    vm_compute. discriminate.
  - refine (proj2 (add_module_behind stub_Get
                     (MkResourceManager [MockFactory]) "carbon"
                     "Foo" "IFoo" ()) _).
    reflexivity.
Defined.

(** Nobody builds ["C"]/["IC"]: the mock, which stands in the list twice,
    is asked twice. *)
Lemma CreateObject_null_asks_all_witness :
  (CreateObject
     (instrument (MkResourceManager [MockFactory; RealFactory; MockFactory]))
     "C" "IC" ((), [])).2.2.2
  = [MkCall 0 "C" "IC" nullptr; MkCall 1 "C" "IC" nullptr;
     MkCall 2 "C" "IC" nullptr].
Proof.
  refine (proj1 (CreateObject_null_asks_all
                   (MkResourceManager [MockFactory; RealFactory; MockFactory])
                   "C" "IC" () [] _)).
  reflexivity.
Defined.

(** A module that is not there, between the mock and the real factory. *)
Lemma CreateObject_skips_inert_witness :
  (CreateObject (MkResourceManager [MockFactory; MkStub []; RealFactory])
     "B" "IB" ()).1
  = (CreateObject (MkResourceManager [MockFactory; RealFactory])
       "B" "IB" ()).1.
Proof.
  refine (proj1 (CreateObject_skips_inert [MockFactory] (MkStub [])
                   [RealFactory] "B" "IB" () _)).
  intros className interfaceName []. reflexivity.
Defined.

(** An unlimited factory ahead of a limited one, with three objects handed
    out so far: the request is granted and the count stays at three, while
    the limited factory on its own would have counted a fourth. *)
Lemma CreateObject_stateless_world_witness :
  (CreateObject
     (MkResourceManager ([Unlimited [("A", "IA", token_M)]]
                         ++ [Limited 5 [("A", "IA", token_R)]]))
     "A" "IA" 3).2.2 = 3
  ∧ (CreateObject
       (MkResourceManager ([Unlimited [("A", "IA", token_M)]]
                           ++ [Limited 5 [("A", "IA", token_R)]]))
       "A" "IA" 3).1 = token_M
  ∧ (CreateObject (MkResourceManager [Limited 5 [("A", "IA", token_R)]])
       "A" "IA" 3).2.2 = 4.
Proof.
  assert (Hfront : Forall (stateless (W := nat))
                     [Unlimited [("A", "IA", token_M)]]).
  { constructor; [|constructor].
    intros className interfaceName built. reflexivity. }
  destruct (CreateObject_stateless_world [Unlimited [("A", "IA", token_M)]]
              "A" "IA" 3 Hfront) as [_ Hbehind].
  assert (Hgranted :
    (CreateObject (MkResourceManager [Unlimited [("A", "IA", token_M)]])
       "A" "IA" 3).1 ≠ nullptr).
  { vm_compute. discriminate. }
  destruct (Hbehind Hgranted [Limited 5 [("A", "IA", token_R)]])
    as [Hworld Hobj].
  split; [exact Hworld|]. split; [exact Hobj|reflexivity].
Defined.

(** Only the real factory builds ["B"]/["IB"], so it does not matter on
    which side of the mock it stands. *)
Lemma CreateObject_order_irrelevant_witness :
  (CreateObject (MkResourceManager [MockFactory; RealFactory])
     "B" "IB" ()).1
  = (CreateObject (MkResourceManager [RealFactory; MockFactory])
       "B" "IB" ()).1.
Proof.
  refine (CreateObject_order_irrelevant [MockFactory; RealFactory]
            [RealFactory; MockFactory] "B" "IB" () _ _ _).
  - apply perm_swap.
  - repeat constructor; apply StubFactory_stateless.
  - intros f g Hf Hg Hfn Hgn.
    rewrite !elem_of_cons, elem_of_nil in Hf, Hg.
    destruct Hf as [->|[->|[]]], Hg as [->|[->|[]]];
      vm_compute in Hfn, Hgn |- *; congruence.
Defined.

(** A debug build on MSVC, not a discovery run: the configuration is loaded
    from the path of the executable, right before the command line is
    parsed. *)
Lemma main_loads_config_witness :
  ∃ before after,
    new_events (MkMachine "" ∅ [])
      (main_recorded (MkOracle 0 false 0 0) (MkMainMacros true true)
         1 ["core_tests"] (MkMachine "" ∅ [])).2
    = before ++ [EvLoadConfig (Some "core_tests");
                 EvParseCli 1 ["core_tests"]] ++ after
    ∧ (∀ path, EvLoadConfig path ∉ before)
    ∧ (∀ path, EvLoadConfig path ∉ after).
Proof.
  refine (proj2 (main_loads_config (MkOracle 0 false 0 0)
                   (MkMainMacros true true) 1 ["core_tests"]
                   (MkMachine "" ∅ [])) _ _); reflexivity.
Defined.
